(** * command-args-viewer.ts: the command probe over the editor's registry

    A shallow embedding of [src/command-args-viewer.ts].  The two exported
    asynchronous helpers that talk to the host, [getAllCommands] and
    [analyzeCommand], are written in a small monad of asynchronous
    computations whose only effects are the two calls of
    [vscode.commands] and a thrown JavaScript value.  A host is a pair of
    state-passing handlers; running a computation against a host yields the
    final host state, the calls made (in order) and how the returned promise
    settled. *)

From Stdlib Require Import String List Bool ZArith Permutation.
From ExtLib Require Import Structures.Monad Structures.MonadExc.
Import ListNotations.
Import MonadNotation.
Local Open Scope string_scope.
Local Open Scope monad_scope.

Set Implicit Arguments.

(** ** JavaScript values *)

Module Js.

(** The values a command can throw ([catch (error: any)]).  Numbers are kept
    to their integer values: the probe never looks inside one.  An object is
    its own data properties, first binding first, and its prototype, which is
    another object or [JsNull] at the end of the chain.  Accessor properties,
    proxies and symbols are left out: what is proved below about the read of
    [error.message] is about values whose properties are data. *)
#[warnings="-register-all"]
Inductive JsValue : Type :=
| JsUndefined
| JsNull
| JsBoolean (b : bool)
| JsNumber (n : Z)
| JsString (s : string)
| JsObject (own : list (string * JsValue)) (proto : JsValue).

Fixpoint lookup {V : Type} (props : list (string * V)) (p : string) : option V :=
  match props with
  | [] => None
  | (k, v) :: rest => if String.eqb k p then Some v else lookup rest p
  end.

(** [O.[[Get]](P)] on data properties: the own property if there is one, else
    the prototype's; a primitive's wrapper has no property of the names read
    here, so the read gives [undefined]. *)
Fixpoint Get (o : JsValue) (p : string) : JsValue :=
  match o with
  | JsObject own proto =>
      match lookup own p with
      | Some v => v
      | None => Get proto p
      end
  | _ => JsUndefined
  end.

(** What it means for a value to carry property [p] with value [v], stated
    without [Get]: found among the own properties, or inherited. *)
Inductive HasProperty : JsValue -> string -> JsValue -> Prop :=
| HasOwn own proto p v :
    lookup own p = Some v -> HasProperty (JsObject own proto) p v
| HasInherited own proto p v :
    lookup own p = None -> HasProperty proto p v ->
    HasProperty (JsObject own proto) p v.

(** [RequireObjectCoercible]: a property read is possible on everything but
    [undefined] and [null]. *)
Definition coercible (v : JsValue) : bool :=
  match v with
  | JsUndefined | JsNull => false
  | _ => true
  end.

Definition is_object (v : JsValue) : bool :=
  match v with
  | JsObject _ _ => true
  | _ => false
  end.

Definition type_name (v : JsValue) : string :=
  match v with
  | JsUndefined => "undefined"
  | JsNull => "null"
  | JsBoolean _ => "boolean"
  | JsNumber _ => "number"
  | JsString _ => "string"
  | JsObject _ _ => "object"
  end.

Definition ErrorPrototype : JsValue :=
  JsObject [("name", JsString "Error"); ("message", JsString "")] JsNull.

Definition TypeErrorPrototype : JsValue :=
  JsObject [("name", JsString "TypeError"); ("message", JsString "")] ErrorPrototype.

(** [new Error(message)] and [new Error()]. *)
Definition new_Error (message : option string) : JsValue :=
  match message with
  | Some m => JsObject [("message", JsString m)] ErrorPrototype
  | None => JsObject [] ErrorPrototype
  end.

(** The error of a property read on [undefined] or [null]. *)
Definition cannot_read (v : JsValue) (p : string) : JsValue :=
  JsObject
    [("message",
      JsString ("Cannot read properties of " ++ type_name v
                ++ " (reading '" ++ p ++ "')"))]
    TypeErrorPrototype.

(** [Array.prototype.includes] on an array of strings: left to right, true at
    the first element equal to the one searched. *)
Fixpoint includes (array : list string) (searchElement : string) : bool :=
  match array with
  | [] => false
  | element :: rest =>
      if String.eqb element searchElement then true
      else includes rest searchElement
  end.

End Js.

Import Js.

(** ** The host: [vscode.commands] *)

(** How a promise handed out by the host ends: fulfilled with a value,
    rejected with an arbitrary thrown value, or never settled. *)
Inductive Settlement (A : Type) : Type :=
| Fulfilled (value : A)
| Rejected (reason : JsValue)
| Pending.

Arguments Rejected {A} reason.
Arguments Pending {A}.

(** The two operations of [vscode.commands] the file uses.  Each may change
    the host's state: commands are live, not dry runs. *)
Record Host (World : Type) : Type := {
  getCommands : World -> World * Settlement (list string);
  executeCommand : string -> list JsValue -> World -> World * Settlement JsValue
}.

(** A call observed at the host's interface. *)
Inductive Call : Type :=
| CallGetCommands
| CallExecuteCommand (command : string) (rest : list JsValue).

(** ** Asynchronous computations *)

(** The body of an [async function]: it returns, throws, or awaits one of the
    host's promises and goes on with its value ([k]) or with the reason of its
    rejection ([h]). *)
Inductive Async (A : Type) : Type :=
| Return (a : A)
| Throw (e : JsValue)
| AwaitGetCommands (k : list string -> Async A) (h : JsValue -> Async A)
| AwaitExecuteCommand (command : string) (rest : list JsValue)
    (k : JsValue -> Async A) (h : JsValue -> Async A).

Arguments Throw {A} e.

Fixpoint Async_bind {A B : Type} (c : Async A) (f : A -> Async B) : Async B :=
  match c with
  | Return a => f a
  | Throw e => Throw e
  | AwaitGetCommands k h =>
      AwaitGetCommands (fun l => Async_bind (k l) f) (fun e => Async_bind (h e) f)
  | AwaitExecuteCommand command rest k h =>
      AwaitExecuteCommand command rest
        (fun v => Async_bind (k v) f) (fun e => Async_bind (h e) f)
  end.

(** [try { c } catch (error) { handler error }]: a throw of the handler is
    not caught again. *)
Fixpoint Async_catch {A : Type} (c : Async A) (handler : JsValue -> Async A) : Async A :=
  match c with
  | Return a => Return a
  | Throw e => handler e
  | AwaitGetCommands k h =>
      AwaitGetCommands (fun l => Async_catch (k l) handler)
                       (fun e => Async_catch (h e) handler)
  | AwaitExecuteCommand command rest k h =>
      AwaitExecuteCommand command rest
        (fun v => Async_catch (k v) handler) (fun e => Async_catch (h e) handler)
  end.

#[global] Instance Monad_Async : Monad Async :=
  {| ret := @Return; bind := @Async_bind |}.

#[global] Instance MonadExc_Async : MonadExc JsValue Async :=
  {| raise := @Throw; catch := @Async_catch |}.

(** [await vscode.commands.getCommands()] *)
Definition await_getCommands : Async (list string) :=
  AwaitGetCommands (@Return _) (@Throw _).

(** [await vscode.commands.executeCommand(command, ...rest)] *)
Definition await_executeCommand (command : string) (rest : list JsValue) : Async JsValue :=
  AwaitExecuteCommand command rest (@Return _) (@Throw _).

(** [v.p] as an expression: a [TypeError] is thrown on [undefined] and
    [null]. *)
Definition member (v : JsValue) (p : string) : Async JsValue :=
  if coercible v then ret (Get v p) else raise (cannot_read v p).

(** What a run leaves behind. *)
Record Run (World A : Type) : Type := {
  final : World;
  calls : list Call;
  settled : Settlement A
}.

Definition after {World A : Type} (c : Call) (r : Run World A) : Run World A :=
  {| final := final r; calls := c :: calls r; settled := settled r |}.

Section Running.

Context {World : Type} (host : Host World).

(** A promise that never settles leaves the function suspended at its
    [await] for good. *)
Fixpoint run {A : Type} (c : Async A) (w : World) : Run World A :=
  match c with
  | Return a => {| final := w; calls := []; settled := Fulfilled a |}
  | Throw e => {| final := w; calls := []; settled := Rejected e |}
  | AwaitGetCommands k h =>
      let (w', s) := getCommands host w in
      after CallGetCommands
        match s with
        | Fulfilled l => run (k l) w'
        | Rejected e => run (h e) w'
        | Pending => {| final := w'; calls := []; settled := Pending |}
        end
  | AwaitExecuteCommand command rest k h =>
      let (w', s) := executeCommand host command rest w in
      after (CallExecuteCommand command rest)
        match s with
        | Fulfilled v => run (k v) w'
        | Rejected e => run (h e) w'
        | Pending => {| final := w'; calls := []; settled := Pending |}
        end
  end.

End Running.

(** ** The source file *)

Module CommandArgsViewer.

(** The object [analyzeCommand] resolves to.  [errorMessage] is [None] when
    the object literal has no such property, and [Some v] when it has one,
    whatever [v] is ([undefined] included). *)
Record ProbeResult : Type := {
  exists_ : bool;
  canExecuteWithoutArgs : bool;
  errorMessage : option JsValue
}.

Definition getAllCommands : Async (list string) :=
  commands <- await_getCommands ;;
  ret commands.

Definition analyzeCommand (commandId : string) : Async ProbeResult :=
  allCommands <- await_getCommands ;;
  let exists_ := includes allCommands commandId in
  if negb exists_ then
    ret {| exists_ := false; canExecuteWithoutArgs := false; errorMessage := None |}
  else
    catch
      (_ <- await_executeCommand commandId [] ;;
       ret {| exists_ := true; canExecuteWithoutArgs := true; errorMessage := None |})
      (fun error =>
         message <- member error "message" ;;
         ret {| exists_ := true;
                canExecuteWithoutArgs := false;
                errorMessage := Some message |}).

End CommandArgsViewer.

Import CommandArgsViewer.

(** ** Hosts to run against *)

(** A host whose answers do not depend on its state; the state counts the
    commands executed, the side effect a probe leaves behind. *)
Definition fixed_host (enumeration : Settlement (list string))
    (invoke : string -> list JsValue -> Settlement JsValue) : Host nat :=
  {| getCommands := fun w => (w, enumeration);
     executeCommand := fun command rest w => (S w, invoke command rest) |}.

Definition always (s : Settlement JsValue) : string -> list JsValue -> Settlement JsValue :=
  fun _ _ => s.

(** A host that remembers, as its state, which commands it has run; what
    [getCommands] lists and how a command ends may depend on it. *)
Definition recording_host (enumeration : list string -> Settlement (list string))
    (invoke : list string -> string -> Settlement JsValue) : Host (list string) :=
  {| getCommands := fun w => (w, enumeration w);
     executeCommand := fun command _ w => (command :: w, invoke w command) |}.

(** ** The rest of the file: console output and calls that are not awaited *)

(** [ToBoolean], the test of [if (error.message)]. *)
Definition ToBoolean (v : JsValue) : bool :=
  match v with
  | JsUndefined | JsNull => false
  | JsBoolean b => b
  | JsNumber n => negb (Z.eqb n 0)
  | JsString s => negb (String.eqb s "")
  | JsObject _ _ => true
  end.

(** How the evaluation of an expression that awaits nothing ends. *)
Inductive Completion (A : Type) : Type :=
| Normal (value : A)
| Abrupt (thrown : JsValue).

Arguments Abrupt {A} thrown.

(** What a function of the file does that can be observed from outside: a
    call of the host, or a line on the console. *)
Inductive Effect : Type :=
| HostCall (c : Call)
| ConsoleLog (line : string).

(** Bodies that also print, and that start a command without awaiting its
    promise ([Start]): whatever that promise does later is dropped. *)
Inductive Script (A : Type) : Type :=
| Finish (a : A)
| Fail (e : JsValue)
| Print (line : string) (next : Script A)
| Start (command : string) (rest : list JsValue) (next : Script A)
| AwaitList (k : list string -> Script A) (h : JsValue -> Script A)
| AwaitCommand (command : string) (rest : list JsValue)
    (k : JsValue -> Script A) (h : JsValue -> Script A).

Arguments Fail {A} e.

Fixpoint Script_bind {A B : Type} (c : Script A) (f : A -> Script B) : Script B :=
  match c with
  | Finish a => f a
  | Fail e => Fail e
  | Print line next => Print line (Script_bind next f)
  | Start command rest next => Start command rest (Script_bind next f)
  | AwaitList k h =>
      AwaitList (fun l => Script_bind (k l) f) (fun e => Script_bind (h e) f)
  | AwaitCommand command rest k h =>
      AwaitCommand command rest
        (fun v => Script_bind (k v) f) (fun e => Script_bind (h e) f)
  end.

Fixpoint Script_catch {A : Type} (c : Script A) (handler : JsValue -> Script A) : Script A :=
  match c with
  | Finish a => Finish a
  | Fail e => handler e
  | Print line next => Print line (Script_catch next handler)
  | Start command rest next => Start command rest (Script_catch next handler)
  | AwaitList k h =>
      AwaitList (fun l => Script_catch (k l) handler)
                (fun e => Script_catch (h e) handler)
  | AwaitCommand command rest k h =>
      AwaitCommand command rest
        (fun v => Script_catch (k v) handler) (fun e => Script_catch (h e) handler)
  end.

#[global] Instance Monad_Script : Monad Script :=
  {| ret := @Finish; bind := @Script_bind |}.

#[global] Instance MonadExc_Script : MonadExc JsValue Script :=
  {| raise := @Fail; catch := @Script_catch |}.

(** An asynchronous computation of the first kind, as a script. *)
Fixpoint lift {A : Type} (c : Async A) : Script A :=
  match c with
  | Return a => Finish a
  | Throw e => Fail e
  | AwaitGetCommands k h => AwaitList (fun l => lift (k l)) (fun e => lift (h e))
  | AwaitExecuteCommand command rest k h =>
      AwaitCommand command rest (fun v => lift (k v)) (fun e => lift (h e))
  end.

(** [console.log(line)] *)
Definition console_log (line : string) : Script unit :=
  Print line (Finish tt).

(** [vscode.commands.executeCommand(command, ...rest);] as a statement. *)
Definition start_command (command : string) (rest : list JsValue) : Script unit :=
  Start command rest (Finish tt).

Definition completed {A : Type} (c : Completion A) : Script A :=
  match c with
  | Normal a => ret a
  | Abrupt e => raise e
  end.

(** What a script leaves behind.  For a function that is not [async],
    [Fulfilled] reads: it returned, and [Rejected]: it threw. *)
Record Execution (World A : Type) : Type := {
  world_after : World;
  effects : list Effect;
  outcome : Settlement A
}.

Definition and_then {World A : Type} (e : Effect) (x : Execution World A) :
    Execution World A :=
  {| world_after := world_after x; effects := e :: effects x; outcome := outcome x |}.

Section Executing.

Context {World : Type} (host : Host World).

Fixpoint exec {A : Type} (c : Script A) (w : World) : Execution World A :=
  match c with
  | Finish a => {| world_after := w; effects := []; outcome := Fulfilled a |}
  | Fail e => {| world_after := w; effects := []; outcome := Rejected e |}
  | Print line next => and_then (ConsoleLog line) (exec next w)
  | Start command rest next =>
      let (w', _) := executeCommand host command rest w in
      and_then (HostCall (CallExecuteCommand command rest)) (exec next w')
  | AwaitList k h =>
      let (w', s) := getCommands host w in
      and_then (HostCall CallGetCommands)
        match s with
        | Fulfilled l => exec (k l) w'
        | Rejected e => exec (h e) w'
        | Pending => {| world_after := w'; effects := []; outcome := Pending |}
        end
  | AwaitCommand command rest k h =>
      let (w', s) := executeCommand host command rest w in
      and_then (HostCall (CallExecuteCommand command rest))
        match s with
        | Fulfilled v => exec (k v) w'
        | Rejected e => exec (h e) w'
        | Pending => {| world_after := w'; effects := []; outcome := Pending |}
        end
  end.

End Executing.

(** The lines printed and the host calls made, each in order. *)
Fixpoint printed (es : list Effect) : list string :=
  match es with
  | [] => []
  | ConsoleLog line :: rest => line :: printed rest
  | HostCall _ :: rest => printed rest
  end.

Fixpoint called (es : list Effect) : list Call :=
  match es with
  | [] => []
  | HostCall c :: rest => c :: called rest
  | ConsoleLog _ :: rest => called rest
  end.

Module CommandArgsViewerExamples.

Section Engine.

(** Two things the functions below use and the file does not define.
    [ToString_other] is the engine's conversion to a string of a number or an
    object: number formatting, and the [toString] and [valueOf] methods that
    the value model leaves out; it may throw.  [Uri_parse] is
    [vscode.Uri.parse]. *)
Variable ToString_other : JsValue -> Completion string.
Variable Uri_parse : string -> Completion JsValue.

(** The conversion of a substitution in a template literal. *)
Definition ToString (v : JsValue) : Completion string :=
  match v with
  | JsUndefined => Normal "undefined"
  | JsNull => Normal "null"
  | JsBoolean b => Normal (if b then "true" else "false")
  | JsString s => Normal s
  | JsNumber _ | JsObject _ _ => ToString_other v
  end.

Definition inferCommandArgs (commandId : string) : Script unit :=
  catch
    (_ <- lift (await_executeCommand commandId []) ;;
     console_log ("命令 " ++ commandId ++ " 可以不带参数执行"))
    (fun error =>
       condition <- lift (member error "message") ;;
       if ToBoolean condition then
         message <- lift (member error "message") ;;
         text <- completed (ToString message) ;;
         console_log ("命令 " ++ commandId ++ " 错误信息: " ++ text)
       else
         ret tt).

(** The parameter of an arrow function called with [args]: [undefined] when
    the call passes too few. *)
Definition parameter (args : list JsValue) (i : nat) : JsValue :=
  nth i args JsUndefined.

(** The object [examples], property by property.  An entry applied to the
    arguments of a call is the promise [executeCommand] hands back to the
    caller: its execution settles as that promise does. *)
Definition viewCommandTypeDefinition :
    list (string * (list JsValue -> Script JsValue)) :=
  [ ("vscode.open",
     fun args => lift (await_executeCommand "vscode.open" [parameter args 0]));
    ("vscode.openFolder",
     fun args => lift (await_executeCommand "vscode.openFolder" [parameter args 0]));
    ("vscode.executeFormatDocumentProvider",
     fun args =>
       lift (await_executeCommand "vscode.executeFormatDocumentProvider"
               [parameter args 0; parameter args 1]));
    ("vscode.executeWorkspaceSymbolProvider",
     fun args =>
       lift (await_executeCommand "vscode.executeWorkspaceSymbolProvider"
               [parameter args 0])) ].

Definition exampleWithTypeHint : Script unit :=
  uri <- completed (Uri_parse "file:///path/to/file") ;;
  start_command "vscode.open" [uri] ;;
  start_command "vscode.executeWorkspaceSymbolProvider" [JsString "query"].

End Engine.

End CommandArgsViewerExamples.

Import CommandArgsViewerExamples.

(** Engines to run against: conversions and parsers that answer the same for
    every input, and ones that throw. *)
Definition plain_ToString (v : JsValue) : Completion string :=
  Normal "[object Object]".

Definition throwing_ToString (v : JsValue) : Completion string :=
  Abrupt (JsString "toString failed").

Definition stub_Uri (text : string) : Completion JsValue :=
  Normal (JsObject [("text", JsString text)] JsNull).

Definition throwing_Uri (text : string) : Completion JsValue :=
  Abrupt (JsString "parse failed").

(** ** Facts about the JavaScript fragment *)

Section JsFacts.

Lemma includes_In (array : list string) (x : string) :
  includes array x = true <-> In x array.
Proof.
  induction array as [|element rest IH]; simpl.
  - split; [discriminate | contradiction].
  - destruct (String.eqb_spec element x) as [->|Hne].
    + split; auto.
    + rewrite IH. split; [auto | intros [Heq|Hin]; [contradiction | exact Hin]].
Qed.

Lemma includes_not_In (array : list string) (x : string) :
  includes array x = false <-> ~ In x array.
Proof.
  rewrite <- includes_In. destruct (includes array x); split; congruence.
Qed.

Lemma includes_membership (l l' : list string) (x : string) :
  (In x l <-> In x l') -> includes l x = includes l' x.
Proof.
  intros H. destruct (includes l' x) eqn:E'.
  - apply includes_In, H, includes_In, E'.
  - apply includes_not_In. intros Hin. apply H, includes_In in Hin. congruence.
Qed.

Lemma HasProperty_Get (o : JsValue) (p : string) (v : JsValue) :
  HasProperty o p v -> Get o p = v.
Proof.
  induction 1 as [own proto p v Hown | own proto p v Hown _ IH]; simpl; rewrite Hown.
  - reflexivity.
  - exact IH.
Qed.

Lemma HasProperty_coercible (o : JsValue) (p : string) (v : JsValue) :
  HasProperty o p v -> coercible o = true.
Proof. destruct 1; reflexivity. Qed.

Lemma no_property_Get (o : JsValue) (p : string) :
  (forall v, ~ HasProperty o p v) -> Get o p = JsUndefined.
Proof.
  induction o as [| | b | n | s | own proto IH]; intros Hno; try reflexivity.
  simpl. destruct (lookup own p) as [v|] eqn:Hown.
  - exfalso. apply (Hno v). apply HasOwn. exact Hown.
  - apply IH. intros v Hv. apply (Hno v). apply HasInherited; assumption.
Qed.

Lemma not_coercible (v : JsValue) :
  coercible v = false <-> v = JsUndefined \/ v = JsNull.
Proof.
  destruct v; simpl; split; intros H; auto; try discriminate;
    destruct H; discriminate.
Qed.

End JsFacts.

(** ** One lemma per path through [analyzeCommand] *)

Ltac step_run :=
  unfold analyzeCommand, getAllCommands, await_getCommands, await_executeCommand, member;
  simpl.

Ltac registered H := apply includes_In in H; rewrite H; simpl.

Section Paths.

Context {World : Type} (host : Host World).
Variables (commandId : string) (w w1 : World).

Lemma path_registry_rejected (reason : JsValue) :
  getCommands host w = (w1, Rejected reason) ->
  run host (analyzeCommand commandId) w
  = {| final := w1; calls := [CallGetCommands]; settled := Rejected reason |}.
Proof. intros Hlist. step_run. rewrite Hlist. reflexivity. Qed.

Lemma path_registry_pending :
  getCommands host w = (w1, Pending) ->
  run host (analyzeCommand commandId) w
  = {| final := w1; calls := [CallGetCommands]; settled := Pending |}.
Proof. intros Hlist. step_run. rewrite Hlist. reflexivity. Qed.

Variable allCommands : list string.
Hypothesis Hlist : getCommands host w = (w1, Fulfilled allCommands).

Lemma path_unregistered :
  ~ In commandId allCommands ->
  run host (analyzeCommand commandId) w
  = {| final := w1; calls := [CallGetCommands];
       settled := Fulfilled {| exists_ := false; canExecuteWithoutArgs := false;
                               errorMessage := None |} |}.
Proof.
  intros Hout. apply includes_not_In in Hout.
  step_run. rewrite Hlist. simpl. rewrite Hout. reflexivity.
Qed.

Variable w2 : World.
Hypothesis Hin : In commandId allCommands.

Lemma path_fulfilled (value : JsValue) :
  executeCommand host commandId [] w1 = (w2, Fulfilled value) ->
  run host (analyzeCommand commandId) w
  = {| final := w2; calls := [CallGetCommands; CallExecuteCommand commandId []];
       settled := Fulfilled {| exists_ := true; canExecuteWithoutArgs := true;
                               errorMessage := None |} |}.
Proof.
  intros Hexec. step_run. rewrite Hlist. simpl.
  pose proof Hin as Hreg. registered Hreg. rewrite Hexec. reflexivity.
Qed.

Lemma path_pending :
  executeCommand host commandId [] w1 = (w2, Pending) ->
  run host (analyzeCommand commandId) w
  = {| final := w2; calls := [CallGetCommands; CallExecuteCommand commandId []];
       settled := Pending |}.
Proof.
  intros Hexec. step_run. rewrite Hlist. simpl.
  pose proof Hin as Hreg. registered Hreg. rewrite Hexec. reflexivity.
Qed.

Lemma path_caught (error : JsValue) :
  executeCommand host commandId [] w1 = (w2, Rejected error) ->
  coercible error = true ->
  run host (analyzeCommand commandId) w
  = {| final := w2; calls := [CallGetCommands; CallExecuteCommand commandId []];
       settled := Fulfilled {| exists_ := true; canExecuteWithoutArgs := false;
                               errorMessage := Some (Get error "message") |} |}.
Proof.
  intros Hexec Hco. step_run. rewrite Hlist. simpl.
  pose proof Hin as Hreg. registered Hreg. rewrite Hexec. simpl.
  rewrite Hco. reflexivity.
Qed.

Lemma path_handler_throws (error : JsValue) :
  executeCommand host commandId [] w1 = (w2, Rejected error) ->
  coercible error = false ->
  run host (analyzeCommand commandId) w
  = {| final := w2; calls := [CallGetCommands; CallExecuteCommand commandId []];
       settled := Rejected (cannot_read error "message") |}.
Proof.
  intros Hexec Hco. step_run. rewrite Hlist. simpl.
  pose proof Hin as Hreg. registered Hreg. rewrite Hexec. simpl.
  rewrite Hco. reflexivity.
Qed.

End Paths.

(** ** The probe's contract *)

Section Probe.

Context {World : Type} (host : Host World).

(** C1. An identifier the registry does not enumerate: the probe resolves to
    [{exists: false, canExecuteWithoutArgs: false}] with no [errorMessage],
    and [executeCommand] is not among the calls made. *)
Theorem analyzeCommand_unregistered
    (commandId : string) (w w1 : World) (allCommands : list string) :
  getCommands host w = (w1, Fulfilled allCommands) ->
  ~ In commandId allCommands ->
  settled (run host (analyzeCommand commandId) w)
  = Fulfilled {| exists_ := false; canExecuteWithoutArgs := false;
                 errorMessage := None |}
  /\ calls (run host (analyzeCommand commandId) w) = [CallGetCommands]
  /\ forall command rest,
       ~ In (CallExecuteCommand command rest)
            (calls (run host (analyzeCommand commandId) w)).
Proof.
  intros Hlist Hout. rewrite (path_unregistered host commandId w Hlist Hout). simpl.
  repeat split. intros command rest [Hcall | []]. discriminate Hcall.
Qed.

(** C2. An enumerated identifier whose invocation with no arguments is
    fulfilled: the probe resolves to
    [{exists: true, canExecuteWithoutArgs: true}] with no [errorMessage]. *)
Theorem analyzeCommand_invocable
    (commandId : string) (w w1 w2 : World) (allCommands : list string)
    (value : JsValue) :
  getCommands host w = (w1, Fulfilled allCommands) ->
  In commandId allCommands ->
  executeCommand host commandId [] w1 = (w2, Fulfilled value) ->
  settled (run host (analyzeCommand commandId) w)
  = Fulfilled {| exists_ := true; canExecuteWithoutArgs := true;
                 errorMessage := None |}.
Proof.
  intros Hlist Hin Hexec.
  rewrite (path_fulfilled host commandId w Hlist Hin Hexec). reflexivity.
Qed.

(** C3. An enumerated identifier whose invocation is rejected with an error
    carrying the message [M]: the probe resolves to
    [{exists: true, canExecuteWithoutArgs: false, errorMessage: M}], the
    message being the very string the error carries. *)
Theorem analyzeCommand_forwards_message
    (commandId : string) (w w1 w2 : World) (allCommands : list string)
    (error : JsValue) (M : string) :
  getCommands host w = (w1, Fulfilled allCommands) ->
  In commandId allCommands ->
  executeCommand host commandId [] w1 = (w2, Rejected error) ->
  HasProperty error "message" (JsString M) ->
  settled (run host (analyzeCommand commandId) w)
  = Fulfilled {| exists_ := true; canExecuteWithoutArgs := false;
                 errorMessage := Some (JsString M) |}.
Proof.
  intros Hlist Hin Hexec Hmsg.
  rewrite (path_caught host commandId w Hlist Hin Hexec
             (HasProperty_coercible Hmsg)).
  simpl. rewrite (HasProperty_Get Hmsg). reflexivity.
Qed.

(** C4. Whatever the host does and whatever value the invocation is rejected
    with, a result the probe resolves to has the [errorMessage] property
    exactly when [exists] is true and [canExecuteWithoutArgs] is false. *)
Theorem errorMessage_present_iff
    (commandId : string) (w : World) (result : ProbeResult) :
  settled (run host (analyzeCommand commandId) w) = Fulfilled result ->
  (errorMessage result <> None
   <-> exists_ result = true /\ canExecuteWithoutArgs result = false).
Proof.
  destruct (getCommands host w) as [w1 [allCommands | reason |]] eqn:Hlist.
  - destruct (includes allCommands commandId) eqn:Hreg.
    + apply includes_In in Hreg.
      destruct (executeCommand host commandId [] w1) as [w2 [value | error |]] eqn:Hexec.
      * rewrite (path_fulfilled host commandId w Hlist Hreg Hexec). simpl.
        intros [= <-]. simpl. split; [congruence | intros [_ H]; discriminate H].
      * destruct (coercible error) eqn:Hco.
        -- rewrite (path_caught host commandId w Hlist Hreg Hexec Hco). simpl.
           intros [= <-]. simpl. split; [auto | discriminate].
        -- rewrite (path_handler_throws host commandId w Hlist Hreg Hexec Hco).
           discriminate.
      * rewrite (path_pending host commandId w Hlist Hreg Hexec). discriminate.
    + apply includes_not_In in Hreg.
      rewrite (path_unregistered host commandId w Hlist Hreg). simpl.
      intros [= <-]. simpl. split; [congruence | intros [H _]; discriminate H].
  - rewrite (path_registry_rejected host commandId w Hlist). discriminate.
  - rewrite (path_registry_pending host commandId w Hlist). discriminate.
Qed.

(** Where [error.message] can be read, that is for every thrown value but
    [undefined] and [null], a value that carries no [message], own or
    inherited, gives
    [{exists: true, canExecuteWithoutArgs: false, errorMessage: undefined}]. *)
Theorem analyzeCommand_error_without_message
    (commandId : string) (w w1 w2 : World) (allCommands : list string)
    (error : JsValue) :
  getCommands host w = (w1, Fulfilled allCommands) ->
  In commandId allCommands ->
  executeCommand host commandId [] w1 = (w2, Rejected error) ->
  coercible error = true ->
  (forall v, ~ HasProperty error "message" v) ->
  settled (run host (analyzeCommand commandId) w)
  = Fulfilled {| exists_ := true; canExecuteWithoutArgs := false;
                 errorMessage := Some JsUndefined |}.
Proof.
  intros Hlist Hin Hexec Hco Hno.
  rewrite (path_caught host commandId w Hlist Hin Hexec Hco). simpl.
  rewrite (no_property_Get Hno). reflexivity.
Qed.

(** C7. [getAllCommands] makes the one call [getCommands] and settles the way
    that call settled: fulfilled with the same list (same order, same
    duplicates), rejected with the same reason, or never. *)
Theorem getAllCommands_forwards (w : World) :
  run host getAllCommands w
  = {| final := fst (getCommands host w);
       calls := [CallGetCommands];
       settled := snd (getCommands host w) |}.
Proof.
  step_run. destruct (getCommands host w) as [w1 [commands | reason |]]; reflexivity.
Qed.

End Probe.

Section Propagation.

Context {World : Type} (host : Host World).

(** The ways the probe's promise can be rejected, for thrown values whose
    properties are data: the enumeration was rejected, with the same reason;
    or the command is enumerated, its invocation was rejected with
    [undefined] or [null], and the read of [error.message] in the handler
    threw. *)
Lemma analyzeCommand_rejected_inv
    (commandId : string) (w : World) (reason : JsValue) :
  settled (run host (analyzeCommand commandId) w) = Rejected reason ->
  snd (getCommands host w) = Rejected reason
  \/ exists allCommands error,
       snd (getCommands host w) = Fulfilled allCommands
       /\ In commandId allCommands
       /\ snd (executeCommand host commandId [] (fst (getCommands host w)))
          = Rejected error
       /\ coercible error = false
       /\ reason = cannot_read error "message".
Proof.
  destruct (getCommands host w) as [w1 [allCommands | reason' |]] eqn:Hlist;
    cbn [fst snd].
  - destruct (includes allCommands commandId) eqn:Hreg.
    + apply includes_In in Hreg.
      destruct (executeCommand host commandId [] w1) as [w2 [value | error |]] eqn:Hexec.
      * rewrite (path_fulfilled host commandId w Hlist Hreg Hexec). discriminate.
      * destruct (coercible error) eqn:Hco.
        -- rewrite (path_caught host commandId w Hlist Hreg Hexec Hco). discriminate.
        -- rewrite (path_handler_throws host commandId w Hlist Hreg Hexec Hco). simpl.
           intros [= <-]. right. exists allCommands, error. auto.
      * rewrite (path_pending host commandId w Hlist Hreg Hexec). discriminate.
    + apply includes_not_In in Hreg.
      rewrite (path_unregistered host commandId w Hlist Hreg). discriminate.
  - rewrite (path_registry_rejected host commandId w Hlist). simpl.
    intros [= <-]. left. reflexivity.
  - rewrite (path_registry_pending host commandId w Hlist). discriminate.
Qed.

(** A rejected enumeration is handed on as it is, before any invocation. *)
Lemma analyzeCommand_registry_unavailable
    (commandId : string) (w w1 : World) (reason : JsValue) :
  getCommands host w = (w1, Rejected reason) ->
  settled (run host (analyzeCommand commandId) w) = Rejected reason
  /\ calls (run host (analyzeCommand commandId) w) = [CallGetCommands].
Proof.
  intros Hlist. rewrite (path_registry_rejected host commandId w Hlist). auto.
Qed.

(** C8. No identifier is turned away or rewritten: for every string, the
    empty one included, [exists] is the answer of the membership test on that
    very string, the invocation (if any) names that very string, and the
    probe's promise is rejected only on the invocation path. *)
Theorem analyzeCommand_no_validation
    (commandId : string) (w w1 : World) (allCommands : list string) :
  getCommands host w = (w1, Fulfilled allCommands) ->
  (forall result,
     settled (run host (analyzeCommand commandId) w) = Fulfilled result ->
     (exists_ result = true <-> In commandId allCommands))
  /\ (In commandId allCommands ->
      calls (run host (analyzeCommand commandId) w)
      = [CallGetCommands; CallExecuteCommand commandId []])
  /\ (~ In commandId allCommands ->
      run host (analyzeCommand commandId) w
      = {| final := w1; calls := [CallGetCommands];
           settled := Fulfilled {| exists_ := false;
                                   canExecuteWithoutArgs := false;
                                   errorMessage := None |} |})
  /\ (forall reason,
        settled (run host (analyzeCommand commandId) w) = Rejected reason ->
        In commandId allCommands
        /\ exists error,
             snd (executeCommand host commandId [] w1) = Rejected error
             /\ coercible error = false).
Proof.
  intros Hlist. split; [| split; [| split]].
  - intros result Hres.
    destruct (includes allCommands commandId) eqn:Hreg.
    + apply includes_In in Hreg. revert Hres.
      destruct (executeCommand host commandId [] w1) as [w2 [value | error |]] eqn:Hexec.
      * rewrite (path_fulfilled host commandId w Hlist Hreg Hexec). simpl.
        intros [= <-]. simpl. tauto.
      * destruct (coercible error) eqn:Hco.
        -- rewrite (path_caught host commandId w Hlist Hreg Hexec Hco). simpl.
           intros [= <-]. simpl. tauto.
        -- rewrite (path_handler_throws host commandId w Hlist Hreg Hexec Hco).
           discriminate.
      * rewrite (path_pending host commandId w Hlist Hreg Hexec). discriminate.
    + apply includes_not_In in Hreg. revert Hres.
      rewrite (path_unregistered host commandId w Hlist Hreg). simpl.
      intros [= <-]. simpl. split; [discriminate | contradiction].
  - intros Hin.
    destruct (executeCommand host commandId [] w1) as [w2 [value | error |]] eqn:Hexec.
    + rewrite (path_fulfilled host commandId w Hlist Hin Hexec). reflexivity.
    + destruct (coercible error) eqn:Hco.
      * rewrite (path_caught host commandId w Hlist Hin Hexec Hco). reflexivity.
      * rewrite (path_handler_throws host commandId w Hlist Hin Hexec Hco). reflexivity.
    + rewrite (path_pending host commandId w Hlist Hin Hexec). reflexivity.
  - intros Hout. exact (path_unregistered host commandId w Hlist Hout).
  - intros reason Hrej.
    apply analyzeCommand_rejected_inv in Hrej. rewrite Hlist in Hrej. simpl in Hrej.
    destruct Hrej as [Hrej | (l & error & [= <-] & Hin & Hexec & Hco & _)];
      [discriminate Hrej |].
    split; [exact Hin | exists error; auto].
Qed.

(** C10, for [null] and [undefined]. An enumerated identifier whose invocation is rejected
    with [null] or [undefined]: the read of [error.message] in the handler
    throws a [TypeError], the probe's promise is rejected with it and no
    result is produced. *)
Theorem analyzeCommand_thrown_nullish
    (commandId : string) (w w1 w2 : World) (allCommands : list string)
    (error : JsValue) :
  getCommands host w = (w1, Fulfilled allCommands) ->
  In commandId allCommands ->
  executeCommand host commandId [] w1 = (w2, Rejected error) ->
  error = JsNull \/ error = JsUndefined ->
  settled (run host (analyzeCommand commandId) w)
  = Rejected (cannot_read error "message")
  /\ forall result,
       settled (run host (analyzeCommand commandId) w) <> Fulfilled result.
Proof.
  intros Hlist Hin Hexec Hnullish.
  assert (Hco : coercible error = false) by (apply not_coercible; tauto).
  rewrite (path_handler_throws host commandId w Hlist Hin Hexec Hco). simpl.
  split; [reflexivity | discriminate].
Qed.

End Propagation.

(** ** The enumeration counts only through membership *)

Lemma Permutation_membership (l l' : list string) (x : string) :
  Permutation l l' -> (In x l <-> In x l').
Proof.
  intros Hperm. split.
  - apply Permutation_in. exact Hperm.
  - apply Permutation_in. apply Permutation_sym. exact Hperm.
Qed.

Lemma duplication_membership (l : list string) (x y : string) :
  In y l -> (In x (y :: l) <-> In x l).
Proof.
  intros Hy. simpl. split.
  - intros [<- | Hx]; assumption.
  - auto.
Qed.

Lemma includes_Permutation (l l' : list string) (x : string) :
  Permutation l l' -> includes l x = includes l' x.
Proof. intros Hperm. apply includes_membership, Permutation_membership, Hperm. Qed.

Section Enumerations.

Context {World World' : Type} (host : Host World) (host' : Host World').

(** C9. Two runs of the probe whose enumerations agree on whether
    [commandId] is a member (as they do when one is a permutation of the
    other, or repeats some of its entries) and whose invocations end the same
    way take the same existence decision, make the same calls and settle the
    same way. *)
Theorem analyzeCommand_membership_only
    (commandId : string) (w w1 : World) (w' w1' : World')
    (allCommands allCommands' : list string) :
  getCommands host w = (w1, Fulfilled allCommands) ->
  getCommands host' w' = (w1', Fulfilled allCommands') ->
  (In commandId allCommands <-> In commandId allCommands') ->
  snd (executeCommand host commandId [] w1)
  = snd (executeCommand host' commandId [] w1') ->
  includes allCommands commandId = includes allCommands' commandId
  /\ settled (run host (analyzeCommand commandId) w)
     = settled (run host' (analyzeCommand commandId) w')
  /\ calls (run host (analyzeCommand commandId) w)
     = calls (run host' (analyzeCommand commandId) w').
Proof.
  intros Hlist Hlist' Hmem Hsame.
  split; [exact (includes_membership _ _ _ Hmem) |].
  destruct (includes allCommands commandId) eqn:Hreg.
  - apply includes_In in Hreg. pose proof (proj1 Hmem Hreg) as Hreg'.
    destruct (executeCommand host commandId [] w1) as [w2 s] eqn:Hexec.
    destruct (executeCommand host' commandId [] w1') as [w2' s'] eqn:Hexec'.
    simpl in Hsame. subst s'.
    destruct s as [value | error |].
    + rewrite (path_fulfilled host commandId w Hlist Hreg Hexec),
        (path_fulfilled host' commandId w' Hlist' Hreg' Hexec'). auto.
    + destruct (coercible error) eqn:Hco.
      * rewrite (path_caught host commandId w Hlist Hreg Hexec Hco),
          (path_caught host' commandId w' Hlist' Hreg' Hexec' Hco). auto.
      * rewrite (path_handler_throws host commandId w Hlist Hreg Hexec Hco),
          (path_handler_throws host' commandId w' Hlist' Hreg' Hexec' Hco). auto.
    + rewrite (path_pending host commandId w Hlist Hreg Hexec),
        (path_pending host' commandId w' Hlist' Hreg' Hexec'). auto.
  - apply includes_not_In in Hreg.
    assert (Hreg' : ~ In commandId allCommands') by (intros Hin; apply Hreg, Hmem, Hin).
    rewrite (path_unregistered host commandId w Hlist Hreg),
      (path_unregistered host' commandId w' Hlist' Hreg'). auto.
Qed.

End Enumerations.

(** ** Runs on concrete hosts *)

Example scenario_A :
  run (fixed_host (Fulfilled ["alpha.run"]) (always (Fulfilled JsUndefined)))
      (analyzeCommand "alpha.run") 0
  = {| final := 1;
       calls := [CallGetCommands; CallExecuteCommand "alpha.run" []];
       settled := Fulfilled {| exists_ := true; canExecuteWithoutArgs := true;
                               errorMessage := None |} |}.
Proof. reflexivity. Qed.

Example scenario_B :
  run (fixed_host (Fulfilled ["alpha.run"]) (always (Fulfilled JsUndefined)))
      (analyzeCommand "beta.missing") 0
  = {| final := 0;
       calls := [CallGetCommands];
       settled := Fulfilled {| exists_ := false; canExecuteWithoutArgs := false;
                               errorMessage := None |} |}.
Proof. reflexivity. Qed.

Example scenario_C :
  settled
    (run (fixed_host (Fulfilled ["gamma.format"])
            (always (Rejected (new_Error (Some "Argument 'uri' is required")))))
         (analyzeCommand "gamma.format") 0)
  = Fulfilled {| exists_ := true; canExecuteWithoutArgs := false;
                 errorMessage := Some (JsString "Argument 'uri' is required") |}.
Proof. reflexivity. Qed.

Example scenario_D :
  run (fixed_host (Rejected (new_Error (Some "registry unreachable")))
         (always (Fulfilled JsUndefined)))
      (analyzeCommand "alpha.run") 0
  = {| final := 0;
       calls := [CallGetCommands];
       settled := Rejected (new_Error (Some "registry unreachable")) |}.
Proof. reflexivity. Qed.

(** [new Error()] has no message of its own and inherits the empty one. *)
Example error_with_inherited_message :
  settled
    (run (fixed_host (Fulfilled ["alpha.run"]) (always (Rejected (new_Error None))))
         (analyzeCommand "alpha.run") 0)
  = Fulfilled {| exists_ := true; canExecuteWithoutArgs := false;
                 errorMessage := Some (JsString "") |}.
Proof. reflexivity. Qed.

(** C5. The enumeration is fulfilled and lists the command, the command's
    invocation is rejected with [null], and the probe's promise is rejected
    all the same: the [TypeError] of reading [error.message] in the handler
    reaches the caller. *)
Theorem analyzeCommand_rejects_on_thrown_null :
  getCommands (fixed_host (Fulfilled ["alpha.run"]) (always (Rejected JsNull))) 0
  = (0, Fulfilled ["alpha.run"])
  /\ run (fixed_host (Fulfilled ["alpha.run"]) (always (Rejected JsNull)))
         (analyzeCommand "alpha.run") 0
     = {| final := 1;
          calls := [CallGetCommands; CallExecuteCommand "alpha.run" []];
          settled :=
            Rejected
              (JsObject
                 [("message",
                   JsString "Cannot read properties of null (reading 'message')")]
                 TypeErrorPrototype) |}.
Proof. split; reflexivity. Qed.

(** C6. The command is enumerated and its invocation is rejected with
    [undefined], a failure that carries no [message]: the probe does not
    resolve to [{exists: true, canExecuteWithoutArgs: false}] with an empty or
    absent [errorMessage]; its promise is rejected with the [TypeError] of
    reading [error.message] in the handler. *)
Theorem analyzeCommand_rejects_on_thrown_undefined :
  (forall v, ~ HasProperty JsUndefined "message" v)
  /\ getCommands
       (fixed_host (Fulfilled ["alpha.run"]) (always (Rejected JsUndefined))) 0
     = (0, Fulfilled ["alpha.run"])
  /\ executeCommand
       (fixed_host (Fulfilled ["alpha.run"]) (always (Rejected JsUndefined)))
       "alpha.run" [] 0
     = (1, Rejected JsUndefined)
  /\ run (fixed_host (Fulfilled ["alpha.run"]) (always (Rejected JsUndefined)))
         (analyzeCommand "alpha.run") 0
     = {| final := 1;
          calls := [CallGetCommands; CallExecuteCommand "alpha.run" []];
          settled :=
            Rejected
              (JsObject
                 [("message",
                   JsString
                     "Cannot read properties of undefined (reading 'message')")]
                 TypeErrorPrototype) |}.
Proof.
  split; [intros v Hv; inversion Hv | repeat split].
Qed.

(** A thrown string is not an object, its [message] reads as [undefined],
    and the probe resolves to a result. *)
Lemma thrown_string_is_caught :
  is_object (JsString "boom") = false
  /\ getCommands (fixed_host (Fulfilled ["alpha.run"])
                    (always (Rejected (JsString "boom")))) 0
     = (0, Fulfilled ["alpha.run"])
  /\ executeCommand (fixed_host (Fulfilled ["alpha.run"])
                       (always (Rejected (JsString "boom")))) "alpha.run" [] 0
     = (1, Rejected (JsString "boom"))
  /\ settled
       (run (fixed_host (Fulfilled ["alpha.run"])
               (always (Rejected (JsString "boom"))))
            (analyzeCommand "alpha.run") 0)
     = Fulfilled {| exists_ := true; canExecuteWithoutArgs := false;
                    errorMessage := Some JsUndefined |}.
Proof. repeat split. Qed.

(** ** The contract at concrete hosts *)

Lemma analyzeCommand_unregistered_witness :
  settled
    (run (fixed_host (Fulfilled ["alpha.run"; "gamma.format"])
            (always (Rejected JsNull)))
         (analyzeCommand "beta.missing") 0)
  = Fulfilled {| exists_ := false; canExecuteWithoutArgs := false;
                 errorMessage := None |}
  /\ calls
       (run (fixed_host (Fulfilled ["alpha.run"; "gamma.format"])
               (always (Rejected JsNull)))
            (analyzeCommand "beta.missing") 0)
     = [CallGetCommands]
  /\ forall command rest,
       ~ In (CallExecuteCommand command rest)
            (calls
               (run (fixed_host (Fulfilled ["alpha.run"; "gamma.format"])
                       (always (Rejected JsNull)))
                    (analyzeCommand "beta.missing") 0)).
Proof.
  apply (analyzeCommand_unregistered
           (fixed_host (Fulfilled ["alpha.run"; "gamma.format"])
              (always (Rejected JsNull)))
           "beta.missing" 0 (w1 := 0)
           (allCommands := ["alpha.run"; "gamma.format"])).
  - reflexivity.
  - simpl. intros [H | [H | []]]; discriminate H.
Defined.

Lemma analyzeCommand_invocable_witness :
  settled
    (run (recording_host (fun _ => Fulfilled ["alpha.run"; "alpha.run"])
            (fun _ _ => Fulfilled (JsBoolean true)))
         (analyzeCommand "alpha.run") [])
  = Fulfilled {| exists_ := true; canExecuteWithoutArgs := true;
                 errorMessage := None |}.
Proof.
  apply (analyzeCommand_invocable
           (recording_host (fun _ => Fulfilled ["alpha.run"; "alpha.run"])
              (fun _ _ => Fulfilled (JsBoolean true)))
           "alpha.run" [] (w1 := []) (w2 := ["alpha.run"])
           (allCommands := ["alpha.run"; "alpha.run"]) (value := JsBoolean true)).
  - reflexivity.
  - simpl. left. reflexivity.
  - reflexivity.
Defined.

Lemma analyzeCommand_forwards_message_witness :
  settled
    (run (fixed_host (Fulfilled ["gamma.format"])
            (always (Rejected (new_Error (Some "Argument 'uri' is required")))))
         (analyzeCommand "gamma.format") 0)
  = Fulfilled {| exists_ := true; canExecuteWithoutArgs := false;
                 errorMessage := Some (JsString "Argument 'uri' is required") |}.
Proof.
  apply (analyzeCommand_forwards_message
           (fixed_host (Fulfilled ["gamma.format"])
              (always (Rejected (new_Error (Some "Argument 'uri' is required")))))
           "gamma.format" 0 (w1 := 0) (w2 := 1)
           (allCommands := ["gamma.format"])
           (error := new_Error (Some "Argument 'uri' is required"))).
  - reflexivity.
  - simpl. left. reflexivity.
  - reflexivity.
  - apply HasOwn. reflexivity.
Defined.

Lemma errorMessage_present_iff_witness :
  errorMessage {| exists_ := true; canExecuteWithoutArgs := false;
                  errorMessage := Some JsUndefined |} <> None
  <-> exists_ {| exists_ := true; canExecuteWithoutArgs := false;
                 errorMessage := Some JsUndefined |} = true
      /\ canExecuteWithoutArgs {| exists_ := true; canExecuteWithoutArgs := false;
                                  errorMessage := Some JsUndefined |} = false.
Proof.
  apply (errorMessage_present_iff
           (fixed_host (Fulfilled ["alpha.run"]) (always (Rejected (JsNumber 42))))
           "alpha.run" 0).
  reflexivity.
Defined.

Lemma analyzeCommand_error_without_message_witness :
  settled
    (run (fixed_host (Fulfilled ["alpha.run"])
            (always (Rejected (JsObject [("code", JsNumber 42)] JsNull))))
         (analyzeCommand "alpha.run") 0)
  = Fulfilled {| exists_ := true; canExecuteWithoutArgs := false;
                 errorMessage := Some JsUndefined |}.
Proof.
  apply (analyzeCommand_error_without_message
           (fixed_host (Fulfilled ["alpha.run"])
              (always (Rejected (JsObject [("code", JsNumber 42)] JsNull))))
           "alpha.run" 0 (w1 := 0) (w2 := 1) (allCommands := ["alpha.run"])
           (error := JsObject [("code", JsNumber 42)] JsNull)).
  - reflexivity.
  - simpl. left. reflexivity.
  - reflexivity.
  - reflexivity.
  - intros v Hv. inversion Hv as [own proto p v' Hown | own proto p v' Hown Hproto].
    + discriminate Hown.
    + inversion Hproto.
Defined.

Lemma analyzeCommand_no_validation_witness :
  (forall result,
     settled
       (run (recording_host (fun _ => Fulfilled ["alpha.run"; ""])
               (fun _ _ => Fulfilled JsUndefined))
            (analyzeCommand "") [])
     = Fulfilled result ->
     (exists_ result = true <-> In "" ["alpha.run"; ""]))
  /\ (In "" ["alpha.run"; ""] ->
      calls
        (run (recording_host (fun _ => Fulfilled ["alpha.run"; ""])
                (fun _ _ => Fulfilled JsUndefined))
             (analyzeCommand "") [])
      = [CallGetCommands; CallExecuteCommand "" []])
  /\ (~ In "" ["alpha.run"; ""] ->
      run (recording_host (fun _ => Fulfilled ["alpha.run"; ""])
             (fun _ _ => Fulfilled JsUndefined))
          (analyzeCommand "") []
      = {| final := []; calls := [CallGetCommands];
           settled := Fulfilled {| exists_ := false;
                                   canExecuteWithoutArgs := false;
                                   errorMessage := None |} |})
  /\ (forall reason,
        settled
          (run (recording_host (fun _ => Fulfilled ["alpha.run"; ""])
                  (fun _ _ => Fulfilled JsUndefined))
               (analyzeCommand "") [])
        = Rejected reason ->
        In "" ["alpha.run"; ""]
        /\ exists error,
             snd (executeCommand
                    (recording_host (fun _ => Fulfilled ["alpha.run"; ""])
                       (fun _ _ => Fulfilled JsUndefined)) "" [] [])
             = Rejected error
             /\ coercible error = false).
Proof.
  apply (analyzeCommand_no_validation
           (recording_host (fun _ => Fulfilled ["alpha.run"; ""])
              (fun _ _ => Fulfilled JsUndefined))
           "" [] (w1 := []) (allCommands := ["alpha.run"; ""])).
  reflexivity.
Defined.

(** The second enumeration is the first one reordered, with an entry
    repeated; the second host has already run a command. *)
Lemma analyzeCommand_membership_only_witness :
  includes ["alpha.run"; "gamma.format"] "gamma.format"
  = includes ["gamma.format"; "alpha.run"; "gamma.format"] "gamma.format"
  /\ settled
       (run (fixed_host (Fulfilled ["alpha.run"; "gamma.format"])
               (always (Rejected (new_Error (Some "Argument 'uri' is required")))))
            (analyzeCommand "gamma.format") 0)
     = settled
         (run (recording_host
                 (fun _ => Fulfilled ["gamma.format"; "alpha.run"; "gamma.format"])
                 (fun _ _ => Rejected (new_Error (Some "Argument 'uri' is required"))))
              (analyzeCommand "gamma.format") ["alpha.run"])
  /\ calls
       (run (fixed_host (Fulfilled ["alpha.run"; "gamma.format"])
               (always (Rejected (new_Error (Some "Argument 'uri' is required")))))
            (analyzeCommand "gamma.format") 0)
     = calls
         (run (recording_host
                 (fun _ => Fulfilled ["gamma.format"; "alpha.run"; "gamma.format"])
                 (fun _ _ => Rejected (new_Error (Some "Argument 'uri' is required"))))
              (analyzeCommand "gamma.format") ["alpha.run"]).
Proof.
  apply (analyzeCommand_membership_only
           (fixed_host (Fulfilled ["alpha.run"; "gamma.format"])
              (always (Rejected (new_Error (Some "Argument 'uri' is required")))))
           (recording_host
              (fun _ => Fulfilled ["gamma.format"; "alpha.run"; "gamma.format"])
              (fun _ _ => Rejected (new_Error (Some "Argument 'uri' is required"))))
           "gamma.format" 0 ["alpha.run"] (w1 := 0) (w1' := ["alpha.run"])
           (allCommands := ["alpha.run"; "gamma.format"])
           (allCommands' := ["gamma.format"; "alpha.run"; "gamma.format"])).
  - reflexivity.
  - reflexivity.
  - simpl. split; intros _; [left | right; left]; reflexivity.
  - reflexivity.
Defined.

Lemma analyzeCommand_thrown_nullish_witness :
  settled
    (run (fixed_host (Fulfilled ["alpha.run"]) (always (Rejected JsUndefined)))
         (analyzeCommand "alpha.run") 0)
  = Rejected (cannot_read JsUndefined "message")
  /\ forall result,
       settled
         (run (fixed_host (Fulfilled ["alpha.run"]) (always (Rejected JsUndefined)))
              (analyzeCommand "alpha.run") 0)
       <> Fulfilled result.
Proof.
  apply (analyzeCommand_thrown_nullish
           (fixed_host (Fulfilled ["alpha.run"]) (always (Rejected JsUndefined)))
           "alpha.run" 0 (w1 := 0) (w2 := 1) (allCommands := ["alpha.run"])
           (error := JsUndefined)).
  - reflexivity.
  - simpl. left. reflexivity.
  - reflexivity.
  - right. reflexivity.
Defined.

(** ** Scripts: facts shared by the functions that print or start commands *)

Lemma prefix_append (p s : string) : String.prefix p (p ++ s) = true.
Proof.
  induction p as [|c p IH]; simpl.
  - destruct s; reflexivity.
  - destruct (Ascii.ascii_dec c c) as [_ | Hne]; [exact IH | contradiction].
Qed.

Lemma append_associative (a b c : string) : (a ++ b) ++ c = a ++ b ++ c.
Proof.
  induction a as [|x a IH]; simpl; [reflexivity | rewrite IH; reflexivity].
Qed.

Lemma tag_prefix (commandId tail : string) :
  String.prefix ("命令 " ++ commandId ++ " ")
    ("命令 " ++ commandId ++ " " ++ tail) = true.
Proof.
  rewrite <- (append_associative commandId " " tail).
  rewrite <- (append_associative "命令 " (commandId ++ " ") tail).
  apply prefix_append.
Qed.

Lemma Get_cases (o : JsValue) (p : string) :
  HasProperty o p (Get o p)
  \/ (Get o p = JsUndefined /\ forall v, ~ HasProperty o p v).
Proof.
  induction o as [| | b | n | s | own proto IH];
    try (right; split; [reflexivity | intros v Hv; inversion Hv]).
  simpl. destruct (lookup own p) as [v|] eqn:Hown.
  - left. apply HasOwn. exact Hown.
  - destruct IH as [Hhas | [Hund Hno]].
    + left. apply HasInherited; assumption.
    + right. split; [exact Hund |].
      intros v Hv. inversion Hv as [? ? ? ? Hsome | ? ? ? ? _ Hproto]; subst.
      * congruence.
      * exact (Hno v Hproto).
Qed.

Section Lifting.

Context {World : Type} (host : Host World).

(** A lifted computation executes as it ran: same final state, same calls,
    same settlement, and nothing printed. *)
Lemma exec_lift {A : Type} (c : Async A) (w : World) :
  world_after (exec host (lift c) w) = final (run host c w)
  /\ effects (exec host (lift c) w) = map HostCall (calls (run host c w))
  /\ outcome (exec host (lift c) w) = settled (run host c w).
Proof.
  revert w. induction c as [a | e | k IHk h IHh | command rest k IHk h IHh];
    intros w; simpl; auto.
  - destruct (getCommands host w) as [w1 [l | e |]]; simpl.
    + destruct (IHk l w1) as (H1 & H2 & H3). rewrite H1, H2, H3. auto.
    + destruct (IHh e w1) as (H1 & H2 & H3). rewrite H1, H2, H3. auto.
    + auto.
  - destruct (executeCommand host command rest w) as [w1 [v | e |]]; simpl.
    + destruct (IHk v w1) as (H1 & H2 & H3). rewrite H1, H2, H3. auto.
    + destruct (IHh e w1) as (H1 & H2 & H3). rewrite H1, H2, H3. auto.
    + auto.
Qed.

End Lifting.

(** ** One lemma per path through [inferCommandArgs] *)

Ltac step_exec :=
  unfold inferCommandArgs, exampleWithTypeHint, console_log, start_command,
    completed, await_executeCommand, member;
  simpl.

Section InferPaths.

Context {World : Type} (host : Host World).
Variable ToString_other : JsValue -> Completion string.
Variables (commandId : string) (w w1 : World).

Lemma infer_fulfilled (value : JsValue) :
  executeCommand host commandId [] w = (w1, Fulfilled value) ->
  exec host (inferCommandArgs ToString_other commandId) w
  = {| world_after := w1;
       effects := [HostCall (CallExecuteCommand commandId []);
                   ConsoleLog ("命令 " ++ commandId ++ " 可以不带参数执行")];
       outcome := Fulfilled tt |}.
Proof. intros Hexec. step_exec. rewrite Hexec. reflexivity. Qed.

Lemma infer_pending :
  executeCommand host commandId [] w = (w1, Pending) ->
  exec host (inferCommandArgs ToString_other commandId) w
  = {| world_after := w1;
       effects := [HostCall (CallExecuteCommand commandId [])];
       outcome := Pending |}.
Proof. intros Hexec. step_exec. rewrite Hexec. reflexivity. Qed.

Variable error : JsValue.
Hypothesis Hexec : executeCommand host commandId [] w = (w1, Rejected error).

Lemma infer_handler_throws :
  coercible error = false ->
  exec host (inferCommandArgs ToString_other commandId) w
  = {| world_after := w1;
       effects := [HostCall (CallExecuteCommand commandId [])];
       outcome := Rejected (cannot_read error "message") |}.
Proof. intros Hco. step_exec. rewrite Hexec. simpl. rewrite Hco. reflexivity. Qed.

Lemma infer_silent :
  coercible error = true ->
  ToBoolean (Get error "message") = false ->
  exec host (inferCommandArgs ToString_other commandId) w
  = {| world_after := w1;
       effects := [HostCall (CallExecuteCommand commandId [])];
       outcome := Fulfilled tt |}.
Proof.
  intros Hco Hfalsy. step_exec. rewrite Hexec. simpl. rewrite Hco. simpl.
  rewrite Hfalsy. reflexivity.
Qed.

Lemma infer_reported (text : string) :
  coercible error = true ->
  ToBoolean (Get error "message") = true ->
  ToString ToString_other (Get error "message") = Normal text ->
  exec host (inferCommandArgs ToString_other commandId) w
  = {| world_after := w1;
       effects := [HostCall (CallExecuteCommand commandId []);
                   ConsoleLog ("命令 " ++ commandId ++ " 错误信息: " ++ text)];
       outcome := Fulfilled tt |}.
Proof.
  intros Hco Htruthy Htext. step_exec. rewrite Hexec. simpl. rewrite Hco. simpl.
  rewrite Htruthy. simpl. rewrite Htext. reflexivity.
Qed.

Lemma infer_conversion_throws (thrown : JsValue) :
  coercible error = true ->
  ToBoolean (Get error "message") = true ->
  ToString ToString_other (Get error "message") = Abrupt thrown ->
  exec host (inferCommandArgs ToString_other commandId) w
  = {| world_after := w1;
       effects := [HostCall (CallExecuteCommand commandId [])];
       outcome := Rejected thrown |}.
Proof.
  intros Hco Htruthy Htext. step_exec. rewrite Hexec. simpl. rewrite Hco. simpl.
  rewrite Htruthy. simpl. rewrite Htext. reflexivity.
Qed.

End InferPaths.

(** ** More on [analyzeCommand] *)

Ltac probe_split host id w :=
  destruct (getCommands host w) as [w1 [allCommands | reason0 |]] eqn:Hlist;
  cbn [fst snd];
  [ destruct (includes allCommands id) eqn:Hreg;
    [ pose proof (proj1 (includes_In _ _) Hreg) as Hin;
      destruct (executeCommand host id [] w1) as [w2 [value | error |]] eqn:Hexec;
      cbn [fst snd];
      [ rewrite (path_fulfilled host id w Hlist Hin Hexec)
      | destruct (coercible error) eqn:Hco;
        [ rewrite (path_caught host id w Hlist Hin Hexec Hco)
        | rewrite (path_handler_throws host id w Hlist Hin Hexec Hco) ]
      | rewrite (path_pending host id w Hlist Hin Hexec) ]
    | pose proof (proj1 (includes_not_In _ _) Hreg) as Hout;
      rewrite (path_unregistered host id w Hlist Hout) ]
  | rewrite (path_registry_rejected host id w Hlist)
  | rewrite (path_registry_pending host id w Hlist) ];
  cbn [final calls settled].

Section ProbeEffects.

Context {World : Type} (host : Host World).

(** Whatever the host answers, the probe calls [getCommands] once, first,
    and then [executeCommand] at most once: exactly when the enumeration was
    fulfilled with a list that has the identifier, with that identifier and
    no argument.  The host is left in the state of the last of these calls. *)
Theorem analyzeCommand_calls (commandId : string) (w : World) :
  let enumerated :=
    match snd (getCommands host w) with
    | Fulfilled allCommands => includes allCommands commandId
    | _ => false
    end in
  calls (run host (analyzeCommand commandId) w)
  = CallGetCommands
    :: (if enumerated then [CallExecuteCommand commandId []] else [])
  /\ final (run host (analyzeCommand commandId) w)
     = (if enumerated
        then fst (executeCommand host commandId [] (fst (getCommands host w)))
        else fst (getCommands host w)).
Proof.
  probe_split host commandId w; rewrite ?Hreg, ?Hexec; auto.
Qed.

(** The probe has no timeout: its promise stays pending exactly when the
    enumeration never settles, or the identifier is enumerated and its
    invocation never settles. *)
Theorem analyzeCommand_pending_iff (commandId : string) (w : World) :
  settled (run host (analyzeCommand commandId) w) = Pending
  <-> snd (getCommands host w) = Pending
      \/ exists allCommands,
           snd (getCommands host w) = Fulfilled allCommands
           /\ In commandId allCommands
           /\ snd (executeCommand host commandId [] (fst (getCommands host w)))
              = Pending.
Proof.
  probe_split host commandId w; rewrite ?Hexec; cbn [fst snd];
    (split;
     [ try discriminate; intros _; try (left; reflexivity);
       right; exists allCommands; auto
     | intros [Hp | (l & Heq & Hl & Hp)];
       try discriminate; try reflexivity;
       injection Heq as <-; try contradiction ]).
Qed.


(** A result of the probe has one of three shapes; in particular
    [canExecuteWithoutArgs] is never true of a command reported as not
    existing. *)
Theorem analyzeCommand_result_shapes
    (commandId : string) (w : World) (result : ProbeResult) :
  settled (run host (analyzeCommand commandId) w) = Fulfilled result ->
  (result = {| exists_ := false; canExecuteWithoutArgs := false;
               errorMessage := None |}
   \/ result = {| exists_ := true; canExecuteWithoutArgs := true;
                  errorMessage := None |}
   \/ exists message,
        result = {| exists_ := true; canExecuteWithoutArgs := false;
                    errorMessage := Some message |})
  /\ (canExecuteWithoutArgs result = true -> exists_ result = true).
Proof.
  probe_split host commandId w; try discriminate; intros [= <-]; simpl;
    (split; [| auto; discriminate]); eauto.
Qed.

(** The message is forwarded whatever its type: when the thrown value carries
    a [message], own or inherited, [errorMessage] is that value itself, be it
    a string or not, with no conversion. *)
Theorem analyzeCommand_forwards_any_message
    (commandId : string) (w w1 w2 : World) (allCommands : list string)
    (error message : JsValue) :
  getCommands host w = (w1, Fulfilled allCommands) ->
  In commandId allCommands ->
  executeCommand host commandId [] w1 = (w2, Rejected error) ->
  HasProperty error "message" message ->
  settled (run host (analyzeCommand commandId) w)
  = Fulfilled {| exists_ := true; canExecuteWithoutArgs := false;
                 errorMessage := Some message |}.
Proof.
  intros Hlist Hin Hexec Hmsg.
  rewrite (path_caught host commandId w Hlist Hin Hexec
             (HasProperty_coercible Hmsg)).
  simpl. rewrite (HasProperty_Get Hmsg). reflexivity.
Qed.

End ProbeEffects.

(** ** [inferCommandArgs] *)

Ltac infer_split host T id w :=
  destruct (executeCommand host id [] w) as [w1 [value | error |]] eqn:Hexec;
  cbn [fst snd];
  [ rewrite (infer_fulfilled host T id w Hexec)
  | destruct (coercible error) eqn:Hco;
    [ destruct (ToBoolean (Get error "message")) eqn:Htruthy;
      [ destruct (ToString T (Get error "message")) as [text | thrown] eqn:Htext;
        [ rewrite (infer_reported host T id w Hexec Hco Htruthy Htext)
        | rewrite (infer_conversion_throws host T id w Hexec Hco Htruthy Htext) ]
      | rewrite (infer_silent host T id w Hexec Hco Htruthy) ]
    | rewrite (infer_handler_throws host T id w Hexec Hco) ]
  | rewrite (infer_pending host T id w Hexec) ];
  cbn [world_after effects outcome].

Section Infer.

Context {World : Type} (host : Host World).
Variable ToString_other : JsValue -> Completion string.

(** [inferCommandArgs] does not ask the registry: whatever the identifier
    and the host, its one host call is [executeCommand] with that identifier
    and no argument, made before anything is printed, and the host is left in
    the state of that call. *)
Theorem inferCommandArgs_calls (commandId : string) (w : World) :
  effects (exec host (inferCommandArgs ToString_other commandId) w)
  = HostCall (CallExecuteCommand commandId [])
    :: map ConsoleLog
         (printed (effects (exec host (inferCommandArgs ToString_other commandId) w)))
  /\ called (effects (exec host (inferCommandArgs ToString_other commandId) w))
     = [CallExecuteCommand commandId []]
  /\ world_after (exec host (inferCommandArgs ToString_other commandId) w)
     = fst (executeCommand host commandId [] w).
Proof.
  infer_split host ToString_other commandId w; auto.
Qed.

(** At most one line is printed, and a printed line starts with the command's
    tag. *)
Theorem inferCommandArgs_prints_at_most_once (commandId : string) (w : World) :
  length (printed (effects (exec host (inferCommandArgs ToString_other commandId) w)))
  <= 1
  /\ forall line,
       In line
          (printed (effects (exec host (inferCommandArgs ToString_other commandId) w))) ->
       String.prefix ("命令 " ++ commandId ++ " ") line = true.
Proof.
  infer_split host ToString_other commandId w; simpl; (split; [auto |]);
    intros line Hline; try contradiction;
    destruct Hline as [<- | []].
  - exact (tag_prefix commandId "可以不带参数执行").
  - exact (tag_prefix commandId ("错误信息: " ++ text)).
Qed.

(** A command that completes: the success line is printed and the promise is
    fulfilled. *)
Theorem inferCommandArgs_success
    (commandId : string) (w w1 : World) (value : JsValue) :
  executeCommand host commandId [] w = (w1, Fulfilled value) ->
  printed (effects (exec host (inferCommandArgs ToString_other commandId) w))
  = ["命令 " ++ commandId ++ " 可以不带参数执行"]
  /\ outcome (exec host (inferCommandArgs ToString_other commandId) w)
     = Fulfilled tt.
Proof.
  intros Hexec. rewrite (infer_fulfilled host ToString_other commandId w Hexec).
  auto.
Qed.

(** A command rejected with an error carrying the non-empty string [M] as
    its message: the error line with [M], unchanged, is printed and the
    promise is fulfilled. *)
Theorem inferCommandArgs_reports_message
    (commandId : string) (w w1 : World) (error : JsValue) (M : string) :
  executeCommand host commandId [] w = (w1, Rejected error) ->
  HasProperty error "message" (JsString M) ->
  M <> "" ->
  printed (effects (exec host (inferCommandArgs ToString_other commandId) w))
  = ["命令 " ++ commandId ++ " 错误信息: " ++ M]
  /\ outcome (exec host (inferCommandArgs ToString_other commandId) w)
     = Fulfilled tt.
Proof.
  intros Hexec Hmsg Hnonempty.
  assert (Htruthy : ToBoolean (Get error "message") = true).
  { rewrite (HasProperty_Get Hmsg). simpl.
    destruct (String.eqb_spec M ""); [contradiction | reflexivity]. }
  assert (Htext : ToString ToString_other (Get error "message") = Normal M).
  { rewrite (HasProperty_Get Hmsg). reflexivity. }
  rewrite (infer_reported host ToString_other commandId w Hexec
             (HasProperty_coercible Hmsg) Htruthy Htext).
  auto.
Qed.

(** A command rejected with a value, other than [undefined] and [null],
    that has no [message] or a falsy one (the empty string, [0], [false],
    [null], [undefined]): nothing is printed and the promise is fulfilled, so
    the failure leaves no trace. *)
Theorem inferCommandArgs_silent
    (commandId : string) (w w1 : World) (error : JsValue) :
  executeCommand host commandId [] w = (w1, Rejected error) ->
  coercible error = true ->
  (forall message, HasProperty error "message" message ->
                   ToBoolean message = false) ->
  effects (exec host (inferCommandArgs ToString_other commandId) w)
  = [HostCall (CallExecuteCommand commandId [])]
  /\ outcome (exec host (inferCommandArgs ToString_other commandId) w)
     = Fulfilled tt.
Proof.
  intros Hexec Hco Hfalsy.
  assert (Hread : ToBoolean (Get error "message") = false).
  { destruct (Get_cases error "message") as [Hhas | [Hund _]].
    - exact (Hfalsy _ Hhas).
    - rewrite Hund. reflexivity. }
  rewrite (infer_silent host ToString_other commandId w Hexec Hco Hread). auto.
Qed.

(** A command rejected with [null] or [undefined]: the test
    [if (error.message)] throws, nothing is printed and the promise of
    [inferCommandArgs] is rejected with the [TypeError]. *)
Theorem inferCommandArgs_thrown_nullish
    (commandId : string) (w w1 : World) (error : JsValue) :
  executeCommand host commandId [] w = (w1, Rejected error) ->
  error = JsNull \/ error = JsUndefined ->
  effects (exec host (inferCommandArgs ToString_other commandId) w)
  = [HostCall (CallExecuteCommand commandId [])]
  /\ outcome (exec host (inferCommandArgs ToString_other commandId) w)
     = Rejected (cannot_read error "message").
Proof.
  intros Hexec Hnullish.
  assert (Hco : coercible error = false) by (apply not_coercible; tauto).
  rewrite (infer_handler_throws host ToString_other commandId w Hexec Hco). auto.
Qed.


(** The invocation is awaited without a timeout: while it does not settle,
    the promise of [inferCommandArgs] stays pending and nothing is printed. *)
Theorem inferCommandArgs_pending_iff (commandId : string) (w : World) :
  outcome (exec host (inferCommandArgs ToString_other commandId) w) = Pending
  <-> snd (executeCommand host commandId [] w) = Pending.
Proof.
  infer_split host ToString_other commandId w; split;
    try discriminate; reflexivity.
Qed.

End Infer.

(** ** [viewCommandTypeDefinition] and [exampleWithTypeHint] *)

Ltac split_call host w :=
  match goal with
  | |- context [executeCommand host ?command ?rest w] =>
      destruct (executeCommand host command rest w) as [? [? | ? |]]
  end.

Section Examples.

Context {World : Type} (host : Host World).

(** Every entry of [examples] runs the command it is filed under: called
    with any arguments, it makes one host call, [executeCommand] of its own
    key with its first one or two parameters ([undefined] for a missing one,
    the others dropped), and hands back that call's promise. *)
Theorem viewCommandTypeDefinition_entry
    (key : string) (example : list JsValue -> Script JsValue)
    (args : list JsValue) (w : World) :
  In (key, example) viewCommandTypeDefinition ->
  exists rest,
    rest = map (parameter args) (seq 0 (length rest))
    /\ 1 <= length rest <= 2
    /\ exec host (example args) w
       = {| world_after := fst (executeCommand host key rest w);
            effects := [HostCall (CallExecuteCommand key rest)];
            outcome := snd (executeCommand host key rest w) |}.
Proof.
  simpl. intros [Hentry | [Hentry | [Hentry | [Hentry | []]]]];
    injection Hentry as <- <-;
    [ exists [parameter args 0]
    | exists [parameter args 0]
    | exists [parameter args 0; parameter args 1]
    | exists [parameter args 0] ];
    (split; [reflexivity |]);
    (split; [simpl; split; repeat constructor |]);
    simpl; split_call host w; reflexivity.
Qed.

Variable Uri_parse : string -> Completion JsValue.

(** Once the path is parsed, [exampleWithTypeHint] starts both commands, in
    the order written, and returns, whatever becomes of their promises:
    fulfilled, rejected or never settled, neither is waited for and neither
    failure is reported. *)
Theorem exampleWithTypeHint_starts_both (uri : JsValue) (w : World) :
  Uri_parse "file:///path/to/file" = Normal uri ->
  exec host (exampleWithTypeHint Uri_parse) w
  = {| world_after :=
         fst (executeCommand host "vscode.executeWorkspaceSymbolProvider"
                [JsString "query"]
                (fst (executeCommand host "vscode.open" [uri] w)));
       effects :=
         [HostCall (CallExecuteCommand "vscode.open" [uri]);
          HostCall (CallExecuteCommand "vscode.executeWorkspaceSymbolProvider"
                      [JsString "query"])];
       outcome := Fulfilled tt |}.
Proof.
  intros Hparse. step_exec. rewrite Hparse. simpl.
  destruct (executeCommand host "vscode.open" [uri] w) as [w1 s1]. simpl.
  destruct (executeCommand host "vscode.executeWorkspaceSymbolProvider"
              [JsString "query"] w1) as [w2 s2].
  reflexivity.
Qed.

(** If parsing the path throws, no command is started and the exception
    leaves [exampleWithTypeHint]. *)
Theorem exampleWithTypeHint_parse_throws (thrown : JsValue) (w : World) :
  Uri_parse "file:///path/to/file" = Abrupt thrown ->
  exec host (exampleWithTypeHint Uri_parse) w
  = {| world_after := w; effects := []; outcome := Rejected thrown |}.
Proof.
  intros Hparse. step_exec. rewrite Hparse. reflexivity.
Qed.

End Examples.

(** ** The rest of the file at concrete hosts *)

Lemma analyzeCommand_result_shapes_witness :
  ({| exists_ := true; canExecuteWithoutArgs := false;
      errorMessage := Some (JsString "") |}
   = {| exists_ := false; canExecuteWithoutArgs := false; errorMessage := None |}
   \/ {| exists_ := true; canExecuteWithoutArgs := false;
         errorMessage := Some (JsString "") |}
      = {| exists_ := true; canExecuteWithoutArgs := true; errorMessage := None |}
   \/ exists message,
        {| exists_ := true; canExecuteWithoutArgs := false;
           errorMessage := Some (JsString "") |}
        = {| exists_ := true; canExecuteWithoutArgs := false;
             errorMessage := Some message |})
  /\ (canExecuteWithoutArgs
        {| exists_ := true; canExecuteWithoutArgs := false;
           errorMessage := Some (JsString "") |} = true ->
      exists_
        {| exists_ := true; canExecuteWithoutArgs := false;
           errorMessage := Some (JsString "") |} = true).
Proof.
  apply (analyzeCommand_result_shapes
           (fixed_host (Fulfilled ["alpha.run"]) (always (Rejected (new_Error None))))
           "alpha.run" 0).
  reflexivity.
Defined.

Lemma analyzeCommand_forwards_any_message_witness :
  settled
    (run (fixed_host (Fulfilled ["alpha.run"])
            (always (Rejected (JsObject [("message", JsNumber 404)] ErrorPrototype))))
         (analyzeCommand "alpha.run") 0)
  = Fulfilled {| exists_ := true; canExecuteWithoutArgs := false;
                 errorMessage := Some (JsNumber 404) |}.
Proof.
  apply (analyzeCommand_forwards_any_message
           (fixed_host (Fulfilled ["alpha.run"])
              (always (Rejected (JsObject [("message", JsNumber 404)] ErrorPrototype))))
           "alpha.run" 0 (w1 := 0) (w2 := 1) (allCommands := ["alpha.run"])
           (error := JsObject [("message", JsNumber 404)] ErrorPrototype)).
  - reflexivity.
  - simpl. left. reflexivity.
  - reflexivity.
  - apply HasOwn. reflexivity.
Defined.

Lemma inferCommandArgs_success_witness :
  printed
    (effects
       (exec (fixed_host (Fulfilled []) (always (Fulfilled JsUndefined)))
             (inferCommandArgs plain_ToString "alpha.run") 0))
  = ["命令 alpha.run 可以不带参数执行"]
  /\ outcome
       (exec (fixed_host (Fulfilled []) (always (Fulfilled JsUndefined)))
             (inferCommandArgs plain_ToString "alpha.run") 0)
     = Fulfilled tt.
Proof.
  apply (inferCommandArgs_success
           (fixed_host (Fulfilled []) (always (Fulfilled JsUndefined)))
           plain_ToString "alpha.run" 0 (w1 := 1) (value := JsUndefined)).
  reflexivity.
Defined.

Lemma inferCommandArgs_reports_message_witness :
  printed
    (effects
       (exec (fixed_host (Fulfilled ["gamma.format"])
                (always (Rejected (new_Error (Some "Argument 'uri' is required")))))
             (inferCommandArgs throwing_ToString "gamma.format") 0))
  = ["命令 gamma.format 错误信息: Argument 'uri' is required"]
  /\ outcome
       (exec (fixed_host (Fulfilled ["gamma.format"])
                (always (Rejected (new_Error (Some "Argument 'uri' is required")))))
             (inferCommandArgs throwing_ToString "gamma.format") 0)
     = Fulfilled tt.
Proof.
  apply (inferCommandArgs_reports_message
           (fixed_host (Fulfilled ["gamma.format"])
              (always (Rejected (new_Error (Some "Argument 'uri' is required")))))
           throwing_ToString "gamma.format" 0 (w1 := 1)
           (error := new_Error (Some "Argument 'uri' is required"))).
  - reflexivity.
  - apply HasOwn. reflexivity.
  - discriminate.
Defined.

(** [new Error()]: the inherited message is the empty string, which is
    falsy. *)
Lemma inferCommandArgs_silent_witness :
  effects
    (exec (fixed_host (Fulfilled ["alpha.run"]) (always (Rejected (new_Error None))))
          (inferCommandArgs plain_ToString "alpha.run") 0)
  = [HostCall (CallExecuteCommand "alpha.run" [])]
  /\ outcome
       (exec (fixed_host (Fulfilled ["alpha.run"])
                (always (Rejected (new_Error None))))
             (inferCommandArgs plain_ToString "alpha.run") 0)
     = Fulfilled tt.
Proof.
  apply (inferCommandArgs_silent
           (fixed_host (Fulfilled ["alpha.run"]) (always (Rejected (new_Error None))))
           plain_ToString "alpha.run" 0 (w1 := 1) (error := new_Error None)).
  - reflexivity.
  - reflexivity.
  - intros message Hmsg.
    inversion Hmsg as [? ? ? ? Hown | ? ? ? ? _ Hproto]; subst.
    + discriminate Hown.
    + inversion Hproto as [? ? ? ? Hown | ? ? ? ? Hown _]; subst.
      * injection Hown as <-. reflexivity.
      * discriminate Hown.
Defined.

Lemma inferCommandArgs_thrown_nullish_witness :
  effects
    (exec (fixed_host (Fulfilled ["alpha.run"]) (always (Rejected JsNull)))
          (inferCommandArgs plain_ToString "alpha.run") 0)
  = [HostCall (CallExecuteCommand "alpha.run" [])]
  /\ outcome
       (exec (fixed_host (Fulfilled ["alpha.run"]) (always (Rejected JsNull)))
             (inferCommandArgs plain_ToString "alpha.run") 0)
     = Rejected (cannot_read JsNull "message").
Proof.
  apply (inferCommandArgs_thrown_nullish
           (fixed_host (Fulfilled ["alpha.run"]) (always (Rejected JsNull)))
           plain_ToString "alpha.run" 0 (w1 := 1) (error := JsNull)).
  - reflexivity.
  - left. reflexivity.
Defined.

Lemma viewCommandTypeDefinition_entry_witness :
  exists rest,
    rest = map (parameter [JsString "file:///a.ts"]) (seq 0 (length rest))
    /\ 1 <= length rest <= 2
    /\ exec (fixed_host (Fulfilled []) (always (Rejected JsNull)))
            (lift (await_executeCommand "vscode.executeFormatDocumentProvider"
                     [parameter [JsString "file:///a.ts"] 0;
                      parameter [JsString "file:///a.ts"] 1]))
            0
       = {| world_after :=
              fst (executeCommand
                     (fixed_host (Fulfilled []) (always (Rejected JsNull)))
                     "vscode.executeFormatDocumentProvider" rest 0);
            effects :=
              [HostCall
                 (CallExecuteCommand "vscode.executeFormatDocumentProvider" rest)];
            outcome :=
              snd (executeCommand
                     (fixed_host (Fulfilled []) (always (Rejected JsNull)))
                     "vscode.executeFormatDocumentProvider" rest 0) |}.
Proof.
  apply (viewCommandTypeDefinition_entry
           (fixed_host (Fulfilled []) (always (Rejected JsNull)))
           (key := "vscode.executeFormatDocumentProvider")
           (example :=
              fun args =>
                lift (await_executeCommand "vscode.executeFormatDocumentProvider"
                        [parameter args 0; parameter args 1]))
           [JsString "file:///a.ts"] 0).
  simpl. right. right. left. reflexivity.
Defined.

Lemma exampleWithTypeHint_starts_both_witness :
  exec (fixed_host (Rejected JsNull) (always Pending))
       (exampleWithTypeHint stub_Uri) 0
  = {| world_after := 2;
       effects :=
         [HostCall
            (CallExecuteCommand "vscode.open"
               [JsObject [("text", JsString "file:///path/to/file")] JsNull]);
          HostCall
            (CallExecuteCommand "vscode.executeWorkspaceSymbolProvider"
               [JsString "query"])];
       outcome := Fulfilled tt |}.
Proof.
  apply (exampleWithTypeHint_starts_both
           (fixed_host (Rejected JsNull) (always Pending)) stub_Uri
           (uri := JsObject [("text", JsString "file:///path/to/file")] JsNull) 0).
  reflexivity.
Defined.

Lemma exampleWithTypeHint_parse_throws_witness :
  exec (fixed_host (Fulfilled []) (always (Fulfilled JsUndefined)))
       (exampleWithTypeHint throwing_Uri) 0
  = {| world_after := 0; effects := []; outcome := Rejected (JsString "parse failed") |}.
Proof.
  apply (exampleWithTypeHint_parse_throws
           (fixed_host (Fulfilled []) (always (Fulfilled JsUndefined))) throwing_Uri
           (thrown := JsString "parse failed") 0).
  reflexivity.
Defined.


